(** * Bananabread VM: the instruction handler of [vm/src/handlers.cpp]

    [Handlers::handle] receives a pointer to the current instruction, the
    registers and the operand stack (both by value), classifies the
    instruction with three [dynamic_cast]s tried in sequence and returns a
    pointer to a freshly allocated [Dispatch::Action].

    The embedding keeps the shape of the C++:
    - the instruction pointer is an [option] (null or the pointee);
    - [dynamic_cast<T*>] is a function to [option] that is null for a null
      operand and for an object whose dynamic class does not derive from [T];
    - the three parameters live in the activation record of the call and the
      allocated actions live in a heap, both threaded through a small state
      monad;
    - [new] appends to the heap and yields the address of the new cell.
      In [handle] allocation is taken to succeed; [handle_throwing] is the
      same body run with the [new] of C++, which throws [std::bad_alloc]
      when the allocator refuses. *)

From stdpp Require Import base option list strings.

(** ** Declarations of the headers *)

Module Dispatch.

(** Modelled from the spec: the classes [Dispatch::Cont], [Dispatch::Stop]
    and [Dispatch::Error] deriving from [Dispatch::Action] are declared in
    [handlers.hpp], which this development does not include.  The spec
    gives the closed set Continue, Stop and Error, the last one carrying a
    diagnostic message. *)
Inductive Action : Type :=
| Cont
| Stop
| Error (message : string).

(** The variant of a decision, its payload forgotten. *)
Inductive Kind : Type := KCont | KStop | KError.

Definition kind (a : Action) : Kind :=
  match a with
  | Cont => KCont
  | Stop => KStop
  | Error _ => KError
  end.

Definition is_error (a : Action) : bool :=
  match a with Error _ => true | _ => false end.

End Dispatch.

Module Instruction.

(** The classes below [Instruction::Code] are declared in a header that is
    outside this development, so the hierarchy is a parameter: a type
    of class names, the three names the handler mentions, and
    [derives d t], which says that an object whose dynamic class is [d] can
    be seen as a [t] ([d] is [t] or has [t] as an accessible, unambiguous
    base).  [payload] stands for the data members of the objects. *)
Class Hierarchy : Type := {
  class : Type;
  Label : class;
  Value : class;
  Halt : class;
  derives : class -> class -> bool;
  payload : Type;
}.

(** An object handled through an [Instruction::Code*]. *)
Record Code `{Hierarchy} : Type := mkCode {
  dynamic_type : class;
  fields : payload;
}.

(** "The instruction is a [t]". *)
Definition instance_of `{Hierarchy} (o : Code) (t : class) : Prop :=
  derives (dynamic_type o) t = true.

(** The variant set is disjoint: no object is of two of the three
    variants at once. *)
Definition disjoint_variants `{Hierarchy} : Prop :=
  forall d : class,
    derives d Label && derives d Value = false /\
    derives d Label && derives d Halt = false /\
    derives d Value && derives d Halt = false.

End Instruction.

(** ** Pointers *)

(** [dynamic_cast<t*>(p)]: null when [p] is null or when the pointee is not a
    [t]; the pointer form never throws.  The outcome is read off the dynamic
    class of the pointee, which is right when each object holds one [Code]
    subobject, as under single inheritance; with several [Code] subobjects in
    one object the C++ cast also depends on the one the pointer addresses. *)
Definition dynamic_cast `{Instruction.Hierarchy}
    (t : Instruction.class) (p : option Instruction.Code)
    : option Instruction.Code :=
  match p with
  | None => None
  | Some o => if Instruction.derives (Instruction.dynamic_type o) t
              then Some o else None
  end.

(** A pointer used as a condition. *)
Definition non_null {A : Type} (p : option A) : bool :=
  match p with Some _ => true | None => false end.

(** Substring test, used to read diagnostics. *)
Definition contains (needle hay : string) : bool :=
  match String.index 0 needle hay with Some _ => true | None => false end.

(** ** The handler *)

Section Handlers.

Context `{Instruction.Hierarchy}.

(** [VM::Registers] and [Value::Base] come from headers that this development
    does not include; the handler only copies them. *)
Variable Registers : Type.
Variable Base : Type.

(** Address of an action in the heap. *)
Definition ptr : Type := nat.

(** The parameters of [handle], as the callee holds them. *)
Record Frame : Type := mkFrame {
  code : option Instruction.Code;
  reg : Registers;
  stack : list Base;
}.

Record State : Type := mkState {
  frame : Frame;
  heap : list Dispatch.Action;
}.

Definition M (A : Type) : Type := State -> A * State.

Definition ret {A : Type} (a : A) : M A := fun s => (a, s).

Definition bind {A B : Type} (m : M A) (k : A -> M B) : M B :=
  fun s => let '(a, s') := m s in k a s'.

(** Reading a parameter. *)
Definition param {A : Type} (get : Frame -> A) : M A :=
  fun s => (get (frame s), s).

(** [new a]: the action is constructed in a fresh cell. *)
Definition new (a : Dispatch.Action) : M ptr :=
  fun s => (length (heap s), mkState (frame s) (heap s ++ [a])).

Notation "x <- m ;; k" := (bind m (fun x => k))
  (at level 100, m at next level, right associativity).

(** The body of [Handlers::handle]. *)
Definition handle_body : M ptr :=
  c <- param code ;;
  if non_null (dynamic_cast Instruction.Label c) then
    new Dispatch.Cont
  else if non_null (dynamic_cast Instruction.Value c) then
    new Dispatch.Cont
  else if non_null (dynamic_cast Instruction.Halt c) then
    new Dispatch.Stop
  else
    new (Dispatch.Error "internal error: unhandled instruction").

(** A call: the arguments are copied into the frame, the body runs on the
    given heap.  The result is the returned pointer together with the state
    at the return. *)
Definition handle (code0 : option Instruction.Code) (reg0 : Registers)
    (stack0 : list Base) (h : list Dispatch.Action) : ptr * State :=
  handle_body (mkState (mkFrame code0 reg0 stack0) h).

(** The decision the caller finds behind the returned pointer. *)
Definition decision (code0 : option Instruction.Code) (reg0 : Registers)
    (stack0 : list Base) (h : list Dispatch.Action)
    : option Dispatch.Action :=
  let '(p, s) := handle code0 reg0 stack0 h in heap s !! p.

(** The caller's side: it owns the registers, the operand stack and the
    heap.  [handle] takes registers and stack by value, so at the return the
    callee's copies are dropped and only the heap carries over. *)
Record Machine : Type := mkMachine {
  registers : Registers;
  operands : list Base;
  store : list Dispatch.Action;
}.

Definition call_handle (code0 : option Instruction.Code) (m : Machine)
    : ptr * Machine :=
  let '(p, s) := handle code0 (registers m) (operands m) (store m) in
  (p, mkMachine (registers m) (operands m) (heap s)).

(** *** The dispatcher of the specification *)

(** The spec describes the handler as variant checks tried in a fixed order
    with the error default evaluated last.  [handle_ordered] is that
    description for an arbitrary order of checks; [source_order] is the
    order of the C++. *)
Definition source_order : list (Instruction.class * Dispatch.Action) :=
  [ (Instruction.Label, Dispatch.Cont);
    (Instruction.Value, Dispatch.Cont);
    (Instruction.Halt, Dispatch.Stop) ].

Fixpoint first_match (checks : list (Instruction.class * Dispatch.Action))
    (c : option Instruction.Code) : option Dispatch.Action :=
  match checks with
  | [] => None
  | (t, a) :: rest =>
      if non_null (dynamic_cast t c) then Some a else first_match rest c
  end.

Definition handle_ordered
    (checks : list (Instruction.class * Dispatch.Action)) : M ptr :=
  c <- param code ;;
  match first_match checks c with
  | Some a => new a
  | None => new (Dispatch.Error "internal error: unhandled instruction")
  end.

(** The action a table of checks selects, the error being the default. *)
Definition selected
    (checks : list (Instruction.class * Dispatch.Action))
    (c : option Instruction.Code) : Dispatch.Action :=
  default (Dispatch.Error "internal error: unhandled instruction")
          (first_match checks c).

(** Checks that agree wherever two of them apply to the same pointer. *)
Definition consistent_at
    (checks : list (Instruction.class * Dispatch.Action))
    (c : option Instruction.Code) : Prop :=
  forall t1 a1 t2 a2,
    (t1, a1) ∈ checks -> (t2, a2) ∈ checks ->
    non_null (dynamic_cast t1 c) = true ->
    non_null (dynamic_cast t2 c) = true ->
    a1 = a2.

End Handlers.

Arguments mkFrame {_ _ _} _ _ _.
Arguments mkState {_ _ _} _ _.
Arguments mkMachine {_ _} _ _ _.
Arguments code {_ _ _} _.
Arguments reg {_ _ _} _.
Arguments stack {_ _ _} _.
Arguments frame {_ _ _} _.
Arguments heap {_ _ _} _.
Arguments registers {_ _} _.
Arguments operands {_ _} _.
Arguments store {_ _} _.
Arguments handle_body {_ _ _} _.
Arguments handle {_ _ _} _ _ _ _.
Arguments decision {_ _ _} _ _ _ _.
Arguments call_handle {_ _ _} _ _.
Arguments handle_ordered {_ _ _} _ _.
Arguments new {_ _ _} _ _.
Arguments first_match {_} _ _.
Arguments source_order {_}.
Arguments selected {_} _ _.
Arguments consistent_at {_} _ _.

(** ** The handler with the throwing [new] *)

Section Throwing.

Context `{Instruction.Hierarchy}.
Variables Registers Base : Type.

(** The allocator: whether a request is served, given the actions already
    on the heap.  How much memory there is belongs to the environment of the
    program, so it is a parameter. *)
Variable available : list Dispatch.Action -> bool.

(** The exceptions that can leave the handler. *)
Inductive Exception : Type := bad_alloc.

(** A call either returns a value or throws; both come with the state
    reached. *)
Inductive Outcome (A : Type) : Type :=
| Returned (a : A) (s : State Registers Base)
| Thrown (e : Exception) (s : State Registers Base).

Arguments Returned {A} a s.
Arguments Thrown {A} e s.

Definition T (A : Type) : Type := State Registers Base -> Outcome A.

(** An exception skips the rest of the computation. *)
Definition bind_throwing {A B : Type} (m : T A) (k : A -> T B) : T B :=
  fun s =>
    match m s with
    | Returned a s' => k a s'
    | Thrown e s' => Thrown e s'
    end.

Definition param_throwing {A : Type} (get : Frame Registers Base -> A) : T A :=
  fun s => Returned (get (frame s)) s.

(** [new a] as C++ has it: the action is constructed in a fresh cell, or
    [std::bad_alloc] is thrown and the heap is left as it was. *)
Definition new_throwing (a : Dispatch.Action) : T ptr :=
  fun s =>
    if available (heap s)
    then Returned (length (heap s)) (mkState (frame s) (heap s ++ [a]))
    else Thrown bad_alloc s.

Notation "x <- m ;; k" := (bind_throwing m (fun x => k))
  (at level 100, m at next level, right associativity).

(** The body of [Handlers::handle] again, over the throwing [new].  The
    function has no [try] block, so an exception of [new] leaves it. *)
Definition handle_body_throwing : T ptr :=
  c <- param_throwing code ;;
  if non_null (dynamic_cast Instruction.Label c) then
    new_throwing Dispatch.Cont
  else if non_null (dynamic_cast Instruction.Value c) then
    new_throwing Dispatch.Cont
  else if non_null (dynamic_cast Instruction.Halt c) then
    new_throwing Dispatch.Stop
  else
    new_throwing (Dispatch.Error "internal error: unhandled instruction").

Definition handle_throwing (code0 : option Instruction.Code)
    (reg0 : Registers) (stack0 : list Base) (h : list Dispatch.Action)
    : Outcome ptr :=
  handle_body_throwing (mkState (mkFrame code0 reg0 stack0) h).

End Throwing.

Arguments Returned {_ _ _ _} _ _.
Arguments Thrown {_ _ _ _} _ _.
Arguments handle_body_throwing {_ _ _} _ _.
Arguments handle_throwing {_ _ _} _ _ _ _ _.

(** ** The instruction set of the core *)

Module Core.

(** Modelled from the spec: the instruction classes are declared in a header
    that this development does not include.  The spec gives the closed set
    [Label] (a jump target with a name), [Value] (a literal payload) and
    [Halt], each deriving directly from [Code]; [Jump] is the synthetic
    variant outside that set which the spec uses in its fourth scenario. *)
Inductive class : Type := Code | Label | Value | Halt | Jump.

Definition class_eqb (a b : class) : bool :=
  match a, b with
  | Code, Code | Label, Label | Value, Value | Halt, Halt | Jump, Jump => true
  | _, _ => false
  end.

(** Every class derives from [Code] and from itself, and from nothing
    else. *)
Definition derives (d t : class) : bool :=
  match t with
  | Code => true
  | _ => class_eqb d t
  end.

Inductive payload : Type :=
| NoFields
| Name (name : string)
| Literal (value : Z).

Definition hierarchy : Instruction.Hierarchy := {|
  Instruction.class := class;
  Instruction.Label := Label;
  Instruction.Value := Value;
  Instruction.Halt := Halt;
  Instruction.derives := derives;
  Instruction.payload := payload;
|}.

Definition instr (c : class) (f : payload) : @Instruction.Code hierarchy :=
  @Instruction.mkCode hierarchy c f.

(** Registers of the sample machine: program counter and frame pointer. *)
Definition Registers : Type := (nat * nat)%type.

End Core.

(** A hierarchy outside the spec's data model, where one class is both a
    [Label] and a [Halt]; it shows what the disjointness of the variants
    buys. *)
Module Diamond.

Inductive class : Type := Code | Label | Value | Halt | HaltingLabel.

Definition derives (d t : class) : bool :=
  match d, t with
  | _, Code => true
  | Label, Label | Value, Value | Halt, Halt => true
  | HaltingLabel, (Label | Halt | HaltingLabel) => true
  | _, _ => false
  end.

Definition hierarchy : Instruction.Hierarchy := {|
  Instruction.class := class;
  Instruction.Label := Label;
  Instruction.Value := Value;
  Instruction.Halt := Halt;
  Instruction.derives := derives;
  Instruction.payload := unit;
|}.

End Diamond.

(** ** Scenarios of the specification, run on the model *)

Example scenario_label :
  decision (H := Core.hierarchy)
    (Some (Core.instr Core.Label (Core.Name "loop_start"))) (0, 0) (@nil Z) []
  = Some Dispatch.Cont.
Proof. reflexivity. Qed.

Example scenario_halt :
  decision (H := Core.hierarchy)
    (Some (Core.instr Core.Halt Core.NoFields)) (3, 0) [1%Z] [Dispatch.Cont]
  = Some Dispatch.Stop.
Proof. reflexivity. Qed.

Example scenario_value :
  handle (H := Core.hierarchy)
    (Some (Core.instr Core.Value (Core.Literal 42))) (0, 0) (@nil Z) []
  = (0, mkState (mkFrame (Some (Core.instr Core.Value (Core.Literal 42)))
                   (0, 0) []) [Dispatch.Cont]).
Proof. reflexivity. Qed.

Example scenario_jump :
  decision (H := Core.hierarchy)
    (Some (Core.instr Core.Jump (Core.Name "loop_start"))) (0, 0) (@nil Z) []
  = Some (Dispatch.Error "internal error: unhandled instruction").
Proof. reflexivity. Qed.

(** ** Properties of the handler *)

Section Properties.

Context `{Instruction.Hierarchy}.
Variables Registers Base : Type.

Implicit Types (c : option Instruction.Code) (o : Instruction.Code).
Implicit Types (t : Instruction.class) (a : Dispatch.Action).
Implicit Types (r : Registers) (st : list Base) (h : list Dispatch.Action).
Implicit Types (checks : list (Instruction.class * Dispatch.Action)).

(** *** Casts *)

Lemma cast_null t : dynamic_cast t None = None.
Proof. reflexivity. Qed.

Lemma cast_object o t :
  non_null (dynamic_cast t (Some o))
  = Instruction.derives (Instruction.dynamic_type o) t.
Proof. simpl. by destruct (Instruction.derives _ _). Qed.

Lemma cast_instance o t :
  non_null (dynamic_cast t (Some o)) = true <-> Instruction.instance_of o t.
Proof. by rewrite cast_object. Qed.

(** *** The heap *)


Lemma heap_new_lookup h a : (h ++ [a]) !! length h = Some a.
Proof. by rewrite list_lookup_middle. Qed.

Lemma heap_new_keeps h a (q : nat) b :
  h !! q = Some b -> (h ++ [a]) !! q = Some b.
Proof. intros Hq. by apply lookup_app_l_Some. Qed.

(** *** Running the dispatcher *)

Lemma handle_ordered_run checks c r st h :
  handle_ordered checks (mkState (mkFrame c r st) h)
  = (length h, mkState (mkFrame c r st) (h ++ [selected checks c])).
Proof.
  unfold handle_ordered, selected, bind, param, new. simpl.
  by destruct (first_match checks c).
Qed.

(** The C++ is the ordered dispatcher at the source order. *)
Lemma handle_body_ordered (s : State Registers Base) :
  handle_body s = handle_ordered source_order s.
Proof.
  unfold handle_body, handle_ordered, bind, param. simpl.
  destruct (non_null (dynamic_cast Instruction.Label _)); [done|].
  destruct (non_null (dynamic_cast Instruction.Value _)); [done|].
  by destruct (non_null (dynamic_cast Instruction.Halt _)).
Qed.

Lemma handle_run c r st h :
  handle c r st h
  = (length h, mkState (mkFrame c r st) (h ++ [selected source_order c])).
Proof. unfold handle. by rewrite handle_body_ordered, handle_ordered_run. Qed.

Lemma decision_run c r st h :
  decision c r st h = Some (selected source_order c).
Proof. unfold decision. rewrite handle_run. apply heap_new_lookup. Qed.

Lemma selected_object o :
  selected source_order (Some o)
  = if Instruction.derives (Instruction.dynamic_type o) Instruction.Label
    then Dispatch.Cont
    else if Instruction.derives (Instruction.dynamic_type o) Instruction.Value
    then Dispatch.Cont
    else if Instruction.derives (Instruction.dynamic_type o) Instruction.Halt
    then Dispatch.Stop
    else Dispatch.Error "internal error: unhandled instruction".
Proof.
  unfold selected, source_order, first_match. rewrite !cast_object.
  by repeat destruct (Instruction.derives _ _).
Qed.

(** *** Tables of checks *)

Lemma first_match_Some checks c a :
  first_match checks c = Some a ->
  exists t, (t, a) ∈ checks /\ non_null (dynamic_cast t c) = true.
Proof.
  induction checks as [|[t' a'] rest IH]; simpl; [done|].
  destruct (non_null (dynamic_cast t' c)) eqn:Ht'.
  - intros [= <-]. exists t'. split; [left|done].
  - intros [t [Hin Ht]]%IH. exists t. split; [by right|done].
Qed.

Lemma first_match_None checks c :
  first_match checks c = None <->
  forall t a, (t, a) ∈ checks -> non_null (dynamic_cast t c) = false.
Proof.
  induction checks as [|[t' a'] rest IH]; simpl.
  - split; [|done]. intros _ t a Hin. by apply elem_of_nil in Hin.
  - destruct (non_null (dynamic_cast t' c)) eqn:Ht'.
    + split; [done|]. intros Hall.
      specialize (Hall t' a' (list_elem_of_here _ _)). congruence.
    + rewrite IH. split.
      * intros Hall t a [[= -> ->]|Hin]%elem_of_cons; eauto.
      * intros Hall t a Hin. apply (Hall t a). by right.
Qed.

Lemma first_match_permutation checks checks' c :
  consistent_at checks c -> checks ≡ₚ checks' ->
  first_match checks c = first_match checks' c.
Proof.
  intros Hcons Hperm.
  destruct (first_match checks c) as [a|] eqn:E,
           (first_match checks' c) as [a'|] eqn:E'; [| | |done].
  - apply first_match_Some in E as [t [Hin Ht]].
    apply first_match_Some in E' as [t' [Hin' Ht']].
    rewrite <- Hperm in Hin'. f_equal. eauto.
  - apply first_match_Some in E as [t [Hin Ht]].
    rewrite first_match_None in E'. rewrite Hperm in Hin.
    specialize (E' _ _ Hin). congruence.
  - apply first_match_Some in E' as [t' [Hin' Ht']].
    rewrite first_match_None in E. rewrite <- Hperm in Hin'.
    specialize (E _ _ Hin'). congruence.
Qed.

Lemma source_order_consistent c :
  Instruction.disjoint_variants -> consistent_at source_order c.
Proof.
  intros Hdis t1 a1 t2 a2 Hin1 Hin2 H1 H2.
  destruct c as [o|]; [|done].
  rewrite cast_object in H1, H2.
  destruct (Hdis (Instruction.dynamic_type o)) as (HLV & HLH & HVH).
  unfold source_order in Hin1, Hin2.
  repeat (apply elem_of_cons in Hin1 as [[= -> ->]|Hin1]);
    try (by apply elem_of_nil in Hin1);
    repeat (apply elem_of_cons in Hin2 as [[= -> ->]|Hin2]);
    try (by apply elem_of_nil in Hin2);
    try done;
    rewrite H1, H2 in *; simpl in *; congruence.
Qed.

(** *** Classification *)

(** C1. An instruction that is none of Label, Value and Halt, whatever else
    it may be, gets an Error decision, and an Error decision is given to no
    other instruction.  The message of the Error is the fixed diagnostic: it
    is not empty, and it names an internal error and an unhandled
    instruction. *)
Theorem handle_unhandled_error o r st h :
  ((~ Instruction.instance_of o Instruction.Label /\
    ~ Instruction.instance_of o Instruction.Value /\
    ~ Instruction.instance_of o Instruction.Halt)
   <-> exists msg, decision (Some o) r st h = Some (Dispatch.Error msg))
  /\ (forall msg,
        decision (Some o) r st h = Some (Dispatch.Error msg) ->
        msg = "internal error: unhandled instruction" /\
        0 < String.length msg /\
        contains "internal error" msg = true /\
        contains "unhandled instruction" msg = true).
Proof.
  rewrite decision_run, selected_object.
  unfold Instruction.instance_of.
  split; [split|].
  - intros (HL & HV & HH).
    apply not_true_is_false in HL, HV, HH. rewrite HL, HV, HH. by eexists.
  - intros [msg Hmsg].
    destruct (Instruction.derives _ Instruction.Label); [done|].
    destruct (Instruction.derives _ Instruction.Value); [done|].
    by destruct (Instruction.derives _ Instruction.Halt).
  - intros msg Hmsg.
    assert (msg = "internal error: unhandled instruction") as ->.
    { by repeat destruct (Instruction.derives _ _); simplify_eq. }
    repeat split. simpl. lia.
Qed.

(** C2. With the variants disjoint, a Halt instruction gets Stop, and Stop is
    given to nothing but a Halt instruction (not to a null pointer either). *)
Theorem handle_halt_stop (Hdis : Instruction.disjoint_variants) o r st h :
  (Instruction.instance_of o Instruction.Halt
   <-> decision (Some o) r st h = Some Dispatch.Stop)
  /\ decision None r st h <> Some Dispatch.Stop.
Proof.
  rewrite !decision_run, selected_object.
  unfold Instruction.instance_of.
  destruct (Hdis (Instruction.dynamic_type o)) as (_ & HLH & HVH).
  split; [|done].
  destruct (Instruction.derives _ Instruction.Label),
           (Instruction.derives _ Instruction.Value),
           (Instruction.derives _ Instruction.Halt);
    simpl in *; split; congruence.
Qed.

(** C3. A Label instruction gets Continue. *)
Theorem handle_label_cont o r st h :
  Instruction.instance_of o Instruction.Label ->
  decision (Some o) r st h = Some Dispatch.Cont.
Proof.
  unfold Instruction.instance_of. intros HL.
  by rewrite decision_run, selected_object, HL.
Qed.

(** C4. A Value instruction gets Continue: neither Stop nor an Error. *)
Theorem handle_value_cont o r st h :
  Instruction.instance_of o Instruction.Value ->
  decision (Some o) r st h = Some Dispatch.Cont /\
  decision (Some o) r st h <> Some Dispatch.Stop /\
  (forall msg, decision (Some o) r st h <> Some (Dispatch.Error msg)).
Proof.
  unfold Instruction.instance_of. intros HV.
  rewrite decision_run, selected_object, HV.
  by destruct (Instruction.derives _ Instruction.Label).
Qed.

(** C9. On a null pointer every cast is null, and the handler returns the
    Error with the message "internal error: unhandled instruction", as for
    any other call: a new cell, the frame as it was. *)
Theorem handle_null r st h :
  dynamic_cast Instruction.Label None = None /\
  dynamic_cast Instruction.Value None = None /\
  dynamic_cast Instruction.Halt None = None /\
  decision None r st h
  = Some (Dispatch.Error "internal error: unhandled instruction") /\
  handle None r st h
  = (length h,
     mkState (mkFrame None r st)
       (h ++ [Dispatch.Error "internal error: unhandled instruction"])).
Proof. repeat split. by rewrite decision_run. Qed.

(** *** Totality and effects *)


(** C6. A call leaves the registers and the operand stack as they were: the
    caller's, which were passed by value, and also the copies the handler
    worked on.  This holds for a Label, a Value and a Halt instruction, and
    for any other pointer as well. *)
Theorem handle_preserves_registers_and_stack c (m : Machine Registers Base) :
  registers (call_handle c m).2 = registers m /\
  operands (call_handle c m).2 = operands m /\
  length (operands (call_handle c m).2) = length (operands m) /\
  frame (handle c (registers m) (operands m) (store m)).2
  = mkFrame c (registers m) (operands m).
Proof.
  unfold call_handle. by rewrite handle_run.
Qed.

(** *** Determinism and independence *)

(** C7. Two calls in a row with the same instruction, registers and stack
    give the same decision.  The second call runs on the heap the first one
    left, so the two pointers differ, yet both lead to the same action, hence
    to the same variant. *)
Theorem handle_deterministic c r st h :
  let first := handle c r st h in
  let second := handle c r st (heap first.2) in
  exists a,
    heap first.2 !! first.1 = Some a /\
    heap second.2 !! second.1 = Some a /\
    heap second.2 !! first.1 = Some a /\
    Dispatch.kind <$> heap first.2 !! first.1
    = Dispatch.kind <$> heap second.2 !! second.1 /\
    first.1 <> second.1.
Proof.
  simpl. rewrite !handle_run. simpl.
  exists (selected source_order c).
  rewrite !heap_new_lookup.
  repeat split.
  - apply heap_new_keeps, heap_new_lookup.
  - rewrite length_app. simpl. lia.
Qed.

(** C8. With the variants disjoint, the order of the three checks does not
    matter: the dispatcher that tries them in any order, the error default
    last, does what the handler does (same pointer, same heap, same frame). *)
Theorem handle_order_irrelevant (Hdis : Instruction.disjoint_variants)
    checks (Hperm : checks ≡ₚ source_order) (s : State Registers Base) :
  handle_ordered checks s = handle_body s.
Proof.
  rewrite handle_body_ordered.
  destruct s as [[c r st] h]. rewrite !handle_ordered_run.
  unfold selected.
  rewrite (first_match_permutation source_order checks c);
    [done|by apply source_order_consistent|done].
Qed.

(** C10. The decision is a function of the instruction pointer alone:
    registers, stack and heap may change freely. *)
Theorem decision_ignores_registers_and_stack c r1 r2 st1 st2 h1 h2 :
  decision c r1 st1 h1 = decision c r2 st2 h2 /\
  is_Some (decision c r1 st1 h1).
Proof. rewrite !decision_run. eauto. Qed.

End Properties.

(** ** The theorems at the instruction set of the core *)

Lemma core_disjoint : Instruction.disjoint_variants (H := Core.hierarchy).
Proof. by intros []. Defined.

Lemma handle_halt_stop_witness :
  Instruction.disjoint_variants (H := Core.hierarchy) /\
  ((Instruction.instance_of (Core.instr Core.Halt Core.NoFields)
      (Instruction.Halt (Hierarchy := Core.hierarchy))
    <-> decision (Some (Core.instr Core.Halt Core.NoFields))
          (7, 0) [1%Z; 2%Z] [Dispatch.Cont]
        = Some Dispatch.Stop)
   /\ decision (H := Core.hierarchy) None (7, 0) [1%Z; 2%Z] [Dispatch.Cont]
      <> Some Dispatch.Stop).
Proof.
  split; [exact core_disjoint|].
  exact (handle_halt_stop (H := Core.hierarchy) Core.Registers Z core_disjoint
           (Core.instr Core.Halt Core.NoFields) (7, 0) [1%Z; 2%Z]
           [Dispatch.Cont]).
Defined.

Lemma handle_label_cont_witness :
  Instruction.instance_of (Core.instr Core.Label (Core.Name "loop_start"))
    (Instruction.Label (Hierarchy := Core.hierarchy)) /\
  decision (Some (Core.instr Core.Label (Core.Name "loop_start")))
    (0, 0) (@nil Z) []
  = Some Dispatch.Cont.
Proof.
  split; [reflexivity|].
  apply (handle_label_cont (H := Core.hierarchy) Core.Registers Z).
  reflexivity.
Defined.

Lemma handle_value_cont_witness :
  Instruction.instance_of (Core.instr Core.Value (Core.Literal 42))
    (Instruction.Value (Hierarchy := Core.hierarchy)) /\
  decision (Some (Core.instr Core.Value (Core.Literal 42)))
    (0, 0) (@nil Z) []
  = Some Dispatch.Cont /\
  decision (Some (Core.instr Core.Value (Core.Literal 42)))
    (0, 0) (@nil Z) []
  <> Some Dispatch.Stop /\
  (forall msg,
     decision (Some (Core.instr Core.Value (Core.Literal 42)))
       (0, 0) (@nil Z) []
     <> Some (Dispatch.Error msg)).
Proof.
  split; [reflexivity|].
  apply (handle_value_cont (H := Core.hierarchy) Core.Registers Z).
  reflexivity.
Defined.

Lemma handle_order_irrelevant_witness :
  Instruction.disjoint_variants (H := Core.hierarchy) /\
  [ (Core.Halt, Dispatch.Stop); (Core.Value, Dispatch.Cont);
    (Core.Label, Dispatch.Cont) ]
  ≡ₚ source_order (H := Core.hierarchy) /\
  handle_ordered (H := Core.hierarchy)
    [ (Core.Halt, Dispatch.Stop); (Core.Value, Dispatch.Cont);
      (Core.Label, Dispatch.Cont) ]
    (mkState (mkFrame (Some (Core.instr Core.Halt Core.NoFields))
                (4, 1) [5%Z]) [Dispatch.Cont; Dispatch.Cont])
  = handle_body
      (mkState (mkFrame (Some (Core.instr Core.Halt Core.NoFields))
                  (4, 1) [5%Z]) [Dispatch.Cont; Dispatch.Cont]).
Proof.
  assert ([ (Core.Halt, Dispatch.Stop); (Core.Value, Dispatch.Cont);
            (Core.Label, Dispatch.Cont) ]
          ≡ₚ source_order (H := Core.hierarchy)) as Hperm.
  { unfold source_order. simpl.
    eapply perm_trans; [apply perm_swap|].
    eapply perm_trans; [apply perm_skip, perm_swap|].
    apply perm_swap. }
  split; [exact core_disjoint|].
  split; [exact Hperm|].
  exact (handle_order_irrelevant (H := Core.hierarchy) Core.Registers Z
           core_disjoint _ Hperm _).
Defined.

(** ** Why the variants must be disjoint *)

(** In a hierarchy where a class derives both from [Label] and from [Halt],
    the checks of the C++ give such an object Continue, because the [Label]
    check comes first, and trying [Halt] first gives Stop. *)

Lemma diamond_not_disjoint :
  ~ Instruction.disjoint_variants (H := Diamond.hierarchy).
Proof.
  intros Hdis. by destruct (Hdis Diamond.HaltingLabel) as (_ & [=] & _).
Qed.

Lemma diamond_halt_continues :
  Instruction.instance_of
    (@Instruction.mkCode Diamond.hierarchy Diamond.HaltingLabel tt)
    (Instruction.Halt (Hierarchy := Diamond.hierarchy)) /\
  decision (Some (@Instruction.mkCode Diamond.hierarchy Diamond.HaltingLabel tt))
    tt (@nil Z) []
  = Some Dispatch.Cont.
Proof. by split. Qed.

Lemma diamond_order_matters :
  handle_ordered (H := Diamond.hierarchy)
    [ (Diamond.Halt, Dispatch.Stop); (Diamond.Label, Dispatch.Cont);
      (Diamond.Value, Dispatch.Cont) ]
    (mkState (mkFrame
       (Some (@Instruction.mkCode Diamond.hierarchy Diamond.HaltingLabel tt))
       tt (@nil Z)) [])
  <> handle_body
       (mkState (mkFrame
          (Some (@Instruction.mkCode Diamond.hierarchy Diamond.HaltingLabel tt))
          tt (@nil Z)) []).
Proof. by intros [=]. Qed.

(** ** Further properties of the handler *)

Section Precedence.

Context `{Instruction.Hierarchy}.
Variables Registers Base : Type.

Implicit Types (c : option Instruction.Code) (o : Instruction.Code).
Implicit Types (r : Registers) (st : list Base) (h : list Dispatch.Action).

(** X1. Whatever the hierarchy, Stop is given exactly to the objects that are
    a Halt and neither a Label nor a Value: the two earlier checks take
    precedence over the Halt check. *)
Theorem handle_stop_exactly o r st h :
  decision (Some o) r st h = Some Dispatch.Stop
  <-> (Instruction.instance_of o Instruction.Halt /\
       ~ Instruction.instance_of o Instruction.Label /\
       ~ Instruction.instance_of o Instruction.Value).
Proof.
  rewrite decision_run, selected_object.
  unfold Instruction.instance_of.
  destruct (Instruction.derives _ Instruction.Label),
           (Instruction.derives _ Instruction.Value),
           (Instruction.derives _ Instruction.Halt);
    split; try done; try (intros (? & ? & ?); done).
Qed.

(** X2. Whatever the hierarchy, Continue is given exactly to the objects that
    are a Label or a Value, also when they are a Halt as well. *)
Theorem handle_cont_exactly o r st h :
  decision (Some o) r st h = Some Dispatch.Cont
  <-> (Instruction.instance_of o Instruction.Label \/
       Instruction.instance_of o Instruction.Value).
Proof.
  rewrite decision_run, selected_object.
  unfold Instruction.instance_of.
  destruct (Instruction.derives (Instruction.dynamic_type o) Instruction.Label),
           (Instruction.derives (Instruction.dynamic_type o) Instruction.Value),
           (Instruction.derives (Instruction.dynamic_type o) Instruction.Halt);
    split; try done; try (intros [?|?]; done); auto.
Qed.

(** Heap left by a series of calls, each with its own arguments. *)
Local Abbreviation heap_after calls h :=
  (foldl (fun hp '(c, r, st) => heap (handle c r st hp).2) h calls).

Lemma heap_after_calls
    (calls : list (option Instruction.Code * Registers * list Base)) h :
  heap_after calls h
  = h ++ ((fun '(c, _, _) => selected source_order c) <$> calls).
Proof.
  revert h. induction calls as [|[[c r] st] calls IH]; intros h; simpl.
  - by rewrite app_nil_r.
  - rewrite IH, handle_run. simpl. by rewrite <- app_assoc.
Qed.

(** X4. The handler allocates and never frees.  After any series of calls
    the heap is the old heap followed by one action per call, in call order:
    the [i]-th call's decision sits [i] cells after the old end. *)
Theorem handle_calls_accumulate
    (calls : list (option Instruction.Code * Registers * list Base)) h :
  length (heap_after calls h) = length h + length calls /\
  take (length h) (heap_after calls h) = h /\
  (forall (i : nat) c r st,
     calls !! i = Some (c, r, st) ->
     heap_after calls h !! (length h + i) = decision c r st h).
Proof.
  rewrite heap_after_calls. split; [|split].
  - by rewrite length_app, length_fmap.
  - by rewrite take_app_length.
  - intros i c r st Hi.
    rewrite lookup_app_r by lia.
    replace (length h + i - length h) with i by lia.
    by rewrite list_lookup_fmap, Hi, decision_run.
Qed.

(** X5. When the order of the checks matters.  Trying the three checks in
    any order, the error default last, agrees with the handler on every
    state exactly when no object is a Halt and also a Label or a Value.  A
    Label that is also a Value is harmless: both checks give Continue. *)
Theorem handle_order_irrelevant_iff (r0 : Registers) :
  (forall checks, checks ≡ₚ source_order ->
     forall s : State Registers Base, handle_ordered checks s = handle_body s)
  <-> (forall o, Instruction.instance_of o Instruction.Halt ->
         ~ Instruction.instance_of o Instruction.Label /\
         ~ Instruction.instance_of o Instruction.Value).
Proof.
  split.
  - intros Hall o HH.
    assert ([ (Instruction.Halt, Dispatch.Stop);
              (Instruction.Value, Dispatch.Cont);
              (Instruction.Label, Dispatch.Cont) ] ≡ₚ source_order) as Hperm.
    { unfold source_order.
      eapply perm_trans; [apply perm_swap|].
      eapply perm_trans; [apply perm_skip, perm_swap|].
      apply perm_swap. }
    specialize (Hall _ Hperm (mkState (mkFrame (Some o) r0 []) [])).
    rewrite handle_body_ordered, !handle_ordered_run in Hall.
    injection Hall as Hsel. revert Hsel.
    rewrite selected_object.
    unfold selected, first_match. rewrite !cast_object.
    unfold Instruction.instance_of in *. rewrite HH.
    destruct (Instruction.derives _ Instruction.Label),
             (Instruction.derives _ Instruction.Value); simpl; try done.
  - intros Hexcl checks Hperm [[c r st] h].
    rewrite handle_body_ordered, !handle_ordered_run.
    unfold selected.
    rewrite (first_match_permutation source_order checks c); [done| |done].
    intros t1 a1 t2 a2 Hin1 Hin2 H1 H2.
    destruct c as [o|]; [|done].
    rewrite cast_object in H1, H2.
    pose proof (Hexcl o) as Ho. unfold Instruction.instance_of in Ho.
    unfold source_order in Hin1, Hin2.
    repeat (apply elem_of_cons in Hin1 as [[= -> ->]|Hin1]);
      try (by apply elem_of_nil in Hin1);
      repeat (apply elem_of_cons in Hin2 as [[= -> ->]|Hin2]);
      try (by apply elem_of_nil in Hin2);
      try done;
      destruct (Ho ltac:(done)) as [HL HV]; congruence.
Qed.

End Precedence.

(** ** Properties of the handler with the throwing [new] *)

Section ThrowingProperties.

Context `{Instruction.Hierarchy}.
Variables Registers Base : Type.
Variable available : list Dispatch.Action -> bool.

Implicit Types (c : option Instruction.Code).
Implicit Types (r : Registers) (st : list Base) (h : list Dispatch.Action).

(** The throwing handler does what [handle] does when the allocator serves
    the request, and throws before anything is constructed when it does
    not. *)
Lemma handle_throwing_run c r st h :
  handle_throwing available c r st h
  = if available h
    then Returned (handle c r st h).1 (handle c r st h).2
    else Thrown bad_alloc (mkState (mkFrame c r st) h).
Proof.
  unfold handle_throwing, handle_body_throwing, bind_throwing,
    param_throwing, new_throwing.
  unfold handle, handle_body, bind, param, new. cbn.
  destruct (non_null (dynamic_cast Instruction.Label c)),
           (non_null (dynamic_cast Instruction.Value c)),
           (non_null (dynamic_cast Instruction.Halt c));
    cbn; destruct (available h); reflexivity.
Qed.


(** X6. When the allocator refuses, the call throws [std::bad_alloc] whatever
    the instruction, and the heap is left as it was: nothing is constructed
    before the exception.  No other exception leaves the handler, and it
    throws in no other case. *)
Theorem handle_throws_only_bad_alloc c r st h :
  (available h = false <->
   handle_throwing available c r st h
   = Thrown bad_alloc (mkState (mkFrame c r st) h)) /\
  (forall e s, handle_throwing available c r st h = Thrown e s ->
     e = bad_alloc /\ heap s = h /\ available h = false).
Proof.
  rewrite handle_throwing_run.
  destruct (available h).
  - split; [split; [done|intros [=]]|]. intros e s [=].
  - split; [done|]. by intros e s [= <- <-].
Qed.

End ThrowingProperties.


